(** * Shop page: catalog filtering, size facets, error toast and query protocol

    Shallow embedding of [src/pages/Shop.tsx].  The page is a React function
    component; its two memoised derivations ([availableSizes],
    [filteredProducts]) are pure functions of the query data and of the two
    pieces of filter state, its error toast is a [useEffect] keyed on
    [[isError, error]], and the catalog itself is obtained through
    [useQuery] with the options [staleTime], [retry] and [retryDelay]. *)

From Stdlib Require Import List String Ascii ZArith Bool Lia Sorted Permutation.
Import ListNotations.

Local Open Scope string_scope.
Local Open Scope Z_scope.

(** ** JavaScript values that occur in the filter predicate

    [matchesSearch] is built with [||] and [&&], which return one of their
    operands rather than a boolean: the expression can evaluate to a boolean,
    to the brand string itself (when it is empty) or to [undefined] (when the
    brand is absent).  [Array.prototype.filter] keeps an element when the
    callback result is truthy. *)
Module Js.

Inductive value : Type :=
| Undefined
| Bool (b : bool)
| Str (s : string).

(** ToBoolean of the language. *)
Definition truthy (v : value) : bool :=
  match v with
  | Undefined => false
  | Bool b => b
  | Str s => negb (s =? "")%string
  end.

(** [a || b] once both operands are values; the right operand of the source
    expressions has no effect, so evaluating it eagerly changes nothing. *)
Definition or (a b : value) : value := if truthy a then a else b.

(** [a && b]. *)
Definition and (a b : value) : value := if truthy a then b else a.

(** [String.prototype.includes(sub)]: [sub] occurs in [s] as a contiguous
    run of code units, starting at some position. *)
Fixpoint includes (s sub : string) : bool :=
  String.prefix sub s ||
  match s with
  | EmptyString => false
  | String _ rest => includes rest sub
  end.

(** [Set.prototype.add] on a set kept in insertion order. *)
Definition set_add (x : string) (s : list string) : list string :=
  if existsb (String.eqb x) s then s else s ++ [x].

(** [Array.prototype.sort()] without a comparator, on an array of strings:
    the elements are ordered by their code units, lexicographically.  The
    engine's algorithm is not fixed by the language; on distinct strings
    every correct one yields the same array (lemma [sort_unique] below), so
    insertion is as good as any. *)
Fixpoint insert (x : string) (l : list string) : list string :=
  match l with
  | [] => [x]
  | y :: l' => if String.leb x y then x :: l else y :: insert x l'
  end.

Fixpoint sort (l : list string) : list string :=
  match l with
  | [] => []
  | x :: l' => insert x (sort l')
  end.

End Js.

(** ** Data model: [StockItem] of [@/services/api], as the page uses it *)

Record SizeStock : Type := mkSize {
  size : string;
  count : Z
}.

Record StockItem : Type := mkItem {
  sku : Z;
  item_name : string;
  color_code : string;
  brand : option string;
  sizes : list SizeStock
}.

(** ** The two derivations *)

Section FilterEngine.

(** [String.prototype.toLowerCase]: the Unicode lower-casing of the host.
    The development is parametric in it. *)
Variable toLowerCase : string -> string.

(** [useMemo(() => { ... }, [products])], lines 35-48.  [products] is
    [undefined] until the query has data.  [addSize] is the callback of the
    inner [forEach], [addSizes] that of the outer one; the set starts empty. *)
Definition addSize (set : list string) (sizeObj : SizeStock) : list string :=
  if sizeObj.(count) >? 0 then Js.set_add sizeObj.(size) set else set.

Definition addSizes (set : list string) (product : StockItem) : list string :=
  fold_left addSize product.(sizes) set.

Definition collectSizes (products : list StockItem) : list string :=
  fold_left addSizes products [].

Definition availableSizes (products : option (list StockItem)) : list string :=
  match products with
  | None => []
  | Some products => Js.sort (collectSizes products)
  end.

(** The callback of [products.filter], lines 54-67. *)
Definition matchesSearch (searchTerm : string) (product : StockItem) : Js.value :=
  Js.or
    (Js.Bool (Js.includes (toLowerCase product.(item_name)) (toLowerCase searchTerm)))
    (Js.or
       (Js.Bool (Js.includes (toLowerCase product.(color_code)) (toLowerCase searchTerm)))
       (match product.(brand) with
        | None => Js.Undefined
        | Some b =>
            Js.and (Js.Str b)
                   (Js.Bool (Js.includes (toLowerCase b) (toLowerCase searchTerm)))
        end)).

Definition matchesSize (selectedSize : string) (product : StockItem) : bool :=
  (selectedSize =? "all")%string ||
  existsb (fun sizeObj => (sizeObj.(size) =? selectedSize)%string && (sizeObj.(count) >? 0))
          product.(sizes).

Definition keeps (searchTerm selectedSize : string) (product : StockItem) : bool :=
  Js.truthy (Js.and (matchesSearch searchTerm product)
                    (Js.Bool (matchesSize selectedSize product))).

Definition filteredProducts (products : option (list StockItem))
    (searchTerm selectedSize : string) : list StockItem :=
  match products with
  | None => []
  | Some products => filter (keeps searchTerm selectedSize) products
  end.

End FilterEngine.

(** ** The error toast (lines 28-32)

    [useQuery] hands every render a result object, of which the page reads
    [data], [isLoading], [isError] and [error].  The toast is raised from an
    effect whose dependency array is [[isError, error]]: React runs the
    effect after the first render of a mounted instance and after every later
    render in which some dependency differs, under [Object.is], from its
    value at the previous render of that instance.  The effect has no
    cleanup; an instance that is unmounted loses its hook state. *)
Module Page.

(** An instance of [Error]; objects are compared by identity. *)
Record ErrorObject : Type := mkError {
  ref : nat;
  message : string
}.

(** What a rejected [queryFn] can leave in [error]: an [Error] or something
    else that was thrown. *)
Inductive Thrown : Type :=
| IsError (e : ErrorObject)
| NotError (id : nat).

Record QueryResult : Type := mkResult {
  data : option (list StockItem);
  isLoading : bool;
  isError : bool;
  error : option Thrown      (* [null] when there is none *)
}.

Definition Deps : Type := (bool * option Thrown)%type.

Definition deps (q : QueryResult) : Deps := (q.(isError), q.(error)).

Definition sameValue (a b : option Thrown) : bool :=
  match a, b with
  | None, None => true
  | Some (IsError e1), Some (IsError e2) => Nat.eqb e1.(ref) e2.(ref)
  | Some (NotError i), Some (NotError j) => Nat.eqb i j
  | _, _ => false
  end.

(** [Object.is] on every entry of the dependency array. *)
Definition sameDeps (a b : Deps) : bool :=
  Bool.eqb (fst a) (fst b) && sameValue (snd a) (snd b).

(** [`Shop error: ${error.message}`] *)
Definition toastText (e : ErrorObject) : string :=
  ("Shop error: " ++ e.(message))%string.

(** The effect body: [if (isError && error instanceof Error) toast.error(...)].
    Its result is what it hands to [toast.error], if anything. *)
Definition effect (q : QueryResult) : option string :=
  match q.(isError), q.(error) with
  | true, Some (IsError e) => Some (toastText e)
  | _, _ => None
  end.

(** The page as far as the toast goes: the dependencies remembered by the
    mounted instance ([None] when no instance is mounted) and everything
    [toast.error] was called with, in order. *)
Record State : Type := mkState {
  remembered : option Deps;
  toasts : list string
}.

Definition init : State := mkState None [].

Inductive Event : Type :=
| Render (q : QueryResult)
| Unmount.

Definition effectRuns (remembered : option Deps) (q : QueryResult) : bool :=
  match remembered with
  | None => true
  | Some d => negb (sameDeps d (deps q))
  end.

Definition step (st : State) (ev : Event) : State :=
  match ev with
  | Render q =>
      mkState (Some (deps q))
              (if effectRuns st.(remembered) q
               then match effect q with
                    | Some text => st.(toasts) ++ [text]
                    | None => st.(toasts)
                    end
               else st.(toasts))
  | Unmount => mkState None st.(toasts)
  end.

Definition run (st : State) (tr : list Event) : State := fold_left step tr st.

Definition isRender (ev : Event) : bool :=
  match ev with Render _ => true | Unmount => false end.

(** The query results a trace shows to the page, in order. *)
Fixpoint observed (tr : list Event) : list QueryResult :=
  match tr with
  | [] => []
  | Render q :: tr' => q :: observed tr'
  | Unmount :: tr' => observed tr'
  end.

(** Entries into an error state along a sequence of observed results: the
    results that carry an [Error] with [isError] set and whose
    [(isError, error)] is not the one observed just before. *)
Fixpoint errorEntries (prev : option Deps) (qs : list QueryResult) : list ErrorObject :=
  match qs with
  | [] => []
  | q :: qs' =>
      let rest := errorEntries (Some (deps q)) qs' in
      match q.(isError), q.(error) with
      | true, Some (IsError e) =>
          match prev with
          | Some d => if sameDeps d (deps q) then rest else e :: rest
          | None => e :: rest
          end
      | _, _ => rest
      end
  end.

End Page.

(** ** The query (lines 20-26)

    The page configures the query and leaves fetching, retrying and caching
    to [useQuery].  The options are the page's. *)
Record QueryOptions : Type := mkOptions {
  staleTime : Z;     (* milliseconds *)
  retry : nat;       (* retries after the first failure *)
  retryDelay : Z     (* milliseconds *)
}.

Definition shopQuery : QueryOptions :=
  mkOptions (5 * 60 * 1000) 1 1000.

Definition seconds (n : Z) : Z := n * 1000.

Module CatalogStore.

Inductive Status : Type := Idle | Loading | Success | Error.

(** Modelled from the spec: the [CatalogSnapshot] of section 3, which is not
    in the page's source (the cache lives inside [useQuery]): the cached
    product list if any, the time of the last successful fetch, the status
    tag, and the failure that put the store into [Error]. *)
Record Snapshot : Type := mkSnapshot {
  products : option (list StockItem);
  fetchedAt : option Z;
  status : Status;
  failure : option Page.ErrorObject
}.

Definition empty : Snapshot := mkSnapshot None None Idle None.

(** Modelled from the spec: the world the store of section 4.1 acts on, which
    the page's source leaves to [useQuery]: the clock in milliseconds, how
    many fetch operations were started, how many times the external fetch
    was invoked, and the delays the store waited, in order. *)
Record World : Type := mkWorld {
  clock : Z;
  fetches : nat;
  attempts : nat;
  waits : list Z
}.

Definition advance (dt : Z) (w : World) : World :=
  mkWorld (w.(clock) + dt) w.(fetches) w.(attempts) w.(waits).

Section Protocol.

Variable options : QueryOptions.

(** The fetch boundary of section 6 ([fetchProducts] of [@/services/api]):
    the [n]-th invocation takes some time and yields the full product list
    or fails with an error that carries a message. *)
Variable fetchCatalog : nat -> Z * (list StockItem + Page.ErrorObject).

(** Modelled from the spec: the fetch protocol of section 4.1, which
    [useQuery] implements outside the page's source.  Invoke the fetch; on
    failure wait the fixed delay and retry, as long as retries are left. *)
Fixpoint attempt (retries : nat) (w : World) : World * (list StockItem + Page.ErrorObject) :=
  let '(latency, outcome) := fetchCatalog w.(attempts) in
  let w1 := mkWorld (w.(clock) + latency) w.(fetches) (S w.(attempts)) w.(waits) in
  match outcome with
  | inl ps => (w1, inl ps)
  | inr e =>
      match retries with
      | O => (w1, inr e)
      | S k =>
          attempt k (mkWorld (w1.(clock) + options.(retryDelay)) w1.(fetches)
                             w1.(attempts) (w1.(waits) ++ [options.(retryDelay)]))
      end
  end.

(** Modelled from the spec: entering [Loading] when a fetch starts. *)
Definition loading (s : Snapshot) : Snapshot :=
  mkSnapshot s.(products) s.(fetchedAt) Loading None.

(** Modelled from the spec: on success replace the snapshot, set [Success]
    and stamp the fetch time; when the retries are used up go to [Error] and
    keep whatever snapshot was cached. *)
Definition fetch (s : Snapshot) (w : World) : Snapshot * World :=
  let w0 := mkWorld w.(clock) (S w.(fetches)) w.(attempts) w.(waits) in
  match attempt options.(retry) w0 with
  | (w1, inl ps) => (mkSnapshot (Some ps) (Some w1.(clock)) Success None, w1)
  | (w1, inr e) => (mkSnapshot s.(products) s.(fetchedAt) Error (Some e), w1)
  end.

(** Modelled from the spec: a snapshot exists and its age is below the
    staleness threshold. *)
Definition fresh (s : Snapshot) (w : World) : bool :=
  match s.(products), s.(fetchedAt) with
  | Some _, Some t => w.(clock) - t <? options.(staleTime)
  | _, _ => false
  end.

(** Modelled from the spec: [load()] returns a fresh snapshot without
    fetching and fetches otherwise; [refetch()] always fetches. *)
Definition load (s : Snapshot) (w : World) : Snapshot * World :=
  if fresh s w then (s, w) else fetch s w.

Definition refetch (s : Snapshot) (w : World) : Snapshot * World := fetch s w.

(** Modelled from the spec: a session of the presentation layer with the
    store of section 2, calls of the two operations and time passing in
    between. *)
Inductive Call : Type :=
| DoLoad
| DoRefetch
| Elapse (dt : Z).

Definition exec (sw : Snapshot * World) (c : Call) : Snapshot * World :=
  match c with
  | DoLoad => load (fst sw) (snd sw)
  | DoRefetch => refetch (fst sw) (snd sw)
  | Elapse dt => (fst sw, advance dt (snd sw))
  end.

Definition session (sw : Snapshot * World) (calls : list Call) : Snapshot * World :=
  fold_left exec calls sw.

End Protocol.

(** Modelled from the spec: what the store of section 4.1 shows the page,
    in the shape of the result object of [useQuery]: the cached list as
    [data], the status as [isLoading] and [isError], the failure as [error]. *)
Definition view (s : Snapshot) : Page.QueryResult :=
  Page.mkResult s.(products)
    (match s.(status) with Loading => true | _ => false end)
    (match s.(status) with Error => true | _ => false end)
    (option_map Page.IsError s.(failure)).

(** Modelled from the spec: the renders of a mounted page across one fetch
    of the store, one when it enters [Loading] and one when the fetch has
    settled. *)
Definition rendersOfFetch (before after : Snapshot) : list Page.Event :=
  [Page.Render (view (loading before)); Page.Render (view after)].

End CatalogStore.

(** A lower-casing function to run the definitions with: A-Z to a-z, every
    other code unit unchanged (what [toLowerCase] does on ASCII text). *)
Definition lower_ascii (c : ascii) : ascii :=
  let n := N_of_ascii c in
  if ((65 <=? n) && (n <=? 90))%N then ascii_of_N (n + 32) else c.

Fixpoint asciiLower (s : string) : string :=
  match s with
  | EmptyString => EmptyString
  | String c rest => String (lower_ascii c) (asciiLower rest)
  end.

(** ** The component: state, handlers and what it renders (lines 14-16, 103-182)

    The three [useState] cells, the handlers the JSX attaches, the row of
    size buttons, the error banner and the four-way choice of the main area. *)
Module Shop.

Record Ui : Type := mkUi {
  searchTerm : string;
  selectedSize : string;
  showFilters : bool
}.

(** [useState('')], [useState('all')], [useState(false)]. *)
Definition initial : Ui := mkUi "" "all" false.

(** The state updates the handlers perform. *)
Inductive Handler : Type :=
| SetSearchTerm (value : string)      (* [onChange] of the search input *)
| ToggleFilters                       (* [setShowFilters(!showFilters)] *)
| SetSelectedSize (size : string).    (* [onClick] of a size button *)

Definition handle (ui : Ui) (h : Handler) : Ui :=
  match h with
  | SetSearchTerm value => mkUi value ui.(selectedSize) ui.(showFilters)
  | ToggleFilters => mkUi ui.(searchTerm) ui.(selectedSize) (negb ui.(showFilters))
  | SetSelectedSize size => mkUi ui.(searchTerm) size ui.(showFilters)
  end.

(** A button of the size row: its React key (the "All Sizes" button has
    none), its text, whether it gets the highlighted class, and its
    [onClick]. *)
Record Button : Type := mkButton {
  key : option string;
  text : string;
  highlighted : bool;
  onClick : Handler
}.

(** Lines 116-136: the "All Sizes" button, then one button per available
    size. *)
Definition sizeButtons (sizes : list string) (ui : Ui) : list Button :=
  mkButton None "All Sizes" (ui.(selectedSize) =? "all")%string (SetSelectedSize "all")
  :: map (fun size =>
            mkButton (Some size) size (ui.(selectedSize) =? size)%string
                     (SetSelectedSize size))
         sizes.

(** A [ProductCard] of the grid with its React key. *)
Record Card : Type := mkCard {
  cardKey : Z;
  product : StockItem
}.

(** Lines 152-182: spinner, error with a retry button, "No products found",
    or the grid. *)
Inductive Body : Type :=
| Spinner
| ErrorRetry
| NoProducts
| Grid (cards : list Card).

Definition body (q : Page.QueryResult) (filtered : list StockItem) : Body :=
  if q.(Page.isLoading) then Spinner
  else if q.(Page.isError) then ErrorRetry
  else if Nat.eqb (List.length filtered) 0 then NoProducts
  else Grid (map (fun p => mkCard p.(sku) p) filtered).

(** Lines 142-149: the banner above the main area and the message in it. *)
Definition errorBanner (q : Page.QueryResult) : option string :=
  if q.(Page.isError)
  then Some (match q.(Page.error) with
             | Some (Page.IsError e) => e.(Page.message)
             | _ => "Unknown error"%string
             end)
  else None.

Record View : Type := mkView {
  filtersLabel : string;
  filters : option (list Button);      (* [showFilters && ...] *)
  banner : option string;
  main : Body
}.

Section Render.

Variable toLowerCase : string -> string.

Definition render (q : Page.QueryResult) (ui : Ui) : View :=
  mkView
    (if ui.(showFilters) then "Hide filters" else "Show filters")%string
    (if ui.(showFilters)
     then Some (sizeButtons (availableSizes q.(Page.data)) ui)
     else None)
    (errorBanner q)
    (body q (filteredProducts toLowerCase q.(Page.data) ui.(searchTerm) ui.(selectedSize))).

End Render.

End Shop.

(** What the effect would hand to [toast.error] at a render, if it ran. *)
Definition effectTexts (qs : list Page.QueryResult) : list string :=
  flat_map (fun q => match Page.effect q with Some t => [t] | None => [] end) qs.

(** ** The vocabulary of the specification *)

(** [sub] occurs in [s]. *)
Definition containedIn (sub s : string) : Prop :=
  exists pre post : string, s = (pre ++ sub ++ post)%string.

(** Strictly ascending in the lexicographic order of code units: sorted and
    free of duplicates at once. *)
Definition strictlyAscending (l : list string) : Prop :=
  StronglySorted (fun a b => (a <? b)%string = true) l.

(** [l] is [l'] with some elements left out, the others in place. *)
Inductive Subsequence {A : Type} : list A -> list A -> Prop :=
| sub_nil : Subsequence [] []
| sub_keep x l l' : Subsequence l l' -> Subsequence (x :: l) (x :: l')
| sub_drop x l l' : Subsequence l l' -> Subsequence l (x :: l').

Section FilterSpec.

Variable toLowerCase : string -> string.

Definition caseInsensitivelyContained (sub s : string) : Prop :=
  containedIn (toLowerCase sub) (toLowerCase s).

(** Condition 1 of [filteredProducts], in the specification's words. *)
Definition searchCondition (searchTerm : string) (product : StockItem) : Prop :=
  searchTerm = ""%string \/
  caseInsensitivelyContained searchTerm product.(item_name) \/
  caseInsensitivelyContained searchTerm product.(color_code) \/
  (exists b, product.(brand) = Some b /\ caseInsensitivelyContained searchTerm b).

(** Condition 2. *)
Definition sizeCondition (selectedSize : string) (product : StockItem) : Prop :=
  selectedSize = "all"%string \/
  (exists sizeObj, In sizeObj product.(sizes) /\
                   sizeObj.(size) = selectedSize /\ sizeObj.(count) > 0).

End FilterSpec.

(** Some size entry of some product of [P] carries [label] with stock. *)
Definition inStock (P : list StockItem) (label : string) : Prop :=
  exists product sizeObj,
    In product P /\ In sizeObj product.(sizes) /\
    sizeObj.(size) = label /\ sizeObj.(count) > 0.

(** The notification rule as the specification words it: over any trace of
    renders and unmounts, one toast per entry into an error state among the
    observed results, and none for a result that was already observed. *)
Definition notifiesOncePerEntry : Prop :=
  forall tr : list Page.Event,
    Page.toasts (Page.run Page.init tr) =
    map Page.toastText (Page.errorEntries None (Page.observed tr)).

(** ** Sample data

    [redShirt] is the product of the scenario in the specification's
    section 8. *)

Definition boom : Page.ErrorObject := Page.mkError 7 "boom".

Definition redShirt : StockItem :=
  mkItem 1 "Red Shirt" "RED" None [mkSize "M" 2; mkSize "L" 0].

Definition acmeCap : StockItem :=
  mkItem 2 "Cap" "BLU" (Some "Acme") [mkSize "S" 1; mkSize "M" 4].

Definition emptyBrandSock : StockItem :=
  mkItem 3 "Sock" "GRY" (Some "") [mkSize "S" 0].

(** A failed refresh next to the data of an earlier success. *)
Definition failed : Page.QueryResult :=
  Page.mkResult (Some [redShirt]) false true (Some (Page.IsError boom)).

Definition pending : Page.QueryResult :=
  Page.mkResult None true false None.

Definition world0 : CatalogStore.World := CatalogStore.mkWorld 0 0 0 [].

(** Fetch boundaries to run the store against. *)
Definition failsOnce (n : nat) : Z * (list StockItem + Page.ErrorObject) :=
  match n with
  | O => (20, inr boom)
  | S _ => (30, inl [redShirt])
  end.

Definition alwaysFails (n : nat) : Z * (list StockItem + Page.ErrorObject) :=
  (20, inr (Page.mkError n "down")).

Definition alwaysSucceeds (n : nat) : Z * (list StockItem + Page.ErrorObject) :=
  (30, inl [redShirt]).

(** A catalog in which a size is labelled like the sentinel. *)
Definition allSizeScarf : StockItem :=
  mkItem 4 "Scarf" "RED" None [mkSize "all" 3].

Definition loaded (P : list StockItem) : Page.QueryResult :=
  Page.mkResult (Some P) false false None.

(** A rejection with something that is not an [Error]. *)
Definition failedOddly : Page.QueryResult :=
  Page.mkResult None false true (Some (Page.NotError 3)).

Example scenario_red_L :
  filteredProducts asciiLower (Some [redShirt]) "red" "L" = [].
Proof. reflexivity. Qed.

Example scenario_red_M :
  filteredProducts asciiLower (Some [redShirt]) "red" "M" = [redShirt].
Proof. reflexivity. Qed.

Example scenario_sizes :
  availableSizes (Some [redShirt]) = ["M"%string].
Proof. reflexivity. Qed.

Example scenario_blue_all :
  filteredProducts asciiLower (Some [redShirt]) "blue" "all" = [].
Proof. reflexivity. Qed.

Example scenario_brand :
  filteredProducts asciiLower (Some [redShirt; acmeCap; emptyBrandSock]) "ACME" "all" = [acmeCap].
Proof. reflexivity. Qed.

Example matchesSearch_absent_brand :
  matchesSearch asciiLower "acme" redShirt = Js.Undefined.
Proof. reflexivity. Qed.

Example matchesSearch_empty_brand :
  matchesSearch asciiLower "acme" emptyBrandSock = Js.Str "".
Proof. reflexivity. Qed.

Example scenario_sizes_union :
  availableSizes (Some [acmeCap; redShirt; emptyBrandSock]) = ["M"; "S"]%string.
Proof. reflexivity. Qed.

Example includes_example :
  Js.includes "red shirt" "d s" = true /\ Js.includes "red shirt" "ds" = false.
Proof. split; reflexivity. Qed.

Example sort_example :
  Js.sort ["XL"; "M"; "L"; "S"; "10"; "9"]%string = ["10"; "9"; "L"; "M"; "S"; "XL"]%string.
Proof. reflexivity. Qed.

(** * Facts about the JavaScript primitives *)

Module JsFacts.

Lemma prefix_empty (s : string) : String.prefix "" s = true.
Proof. destruct s; reflexivity. Qed.

Lemma includes_empty (s : string) : Js.includes s "" = true.
Proof. destruct s; reflexivity. Qed.

Lemma prefix_iff (a s : string) :
  String.prefix a s = true <-> exists post, s = (a ++ post)%string.
Proof.
  revert s; induction a as [|c a IH]; intros s.
  - rewrite prefix_empty. split; [intros _; now exists s | trivial].
  - destruct s as [|d s]; simpl.
    + split; [discriminate | intros [post H]; discriminate].
    + destruct (ascii_dec c d) as [->|Hcd].
      * rewrite IH. split; intros [post H]; exists post.
        -- now rewrite H.
        -- now inversion H.
      * split; [discriminate | intros [post H]; congruence].
Qed.

(** [includes] is containment. *)
Lemma includes_iff (s sub : string) :
  Js.includes s sub = true <-> containedIn sub s.
Proof.
  unfold containedIn. induction s as [|c s IH]; cbn [Js.includes].
  - rewrite orb_false_r, prefix_iff. split.
    + intros [post H]. now exists ""%string, post.
    + intros [pre [post H]]. destruct pre; [now exists post | discriminate].
  - rewrite orb_true_iff, prefix_iff, IH. split.
    + intros [[post H] | [pre [post H]]].
      * now exists ""%string, post.
      * exists (String c pre), post. simpl. now rewrite H.
    + intros [pre [post H]]. destruct pre as [|d pre]; simpl in H.
      * left. now exists post.
      * right. inversion H. now exists pre, post.
Qed.

Lemma existsb_eqb_In (x : string) (l : list string) :
  existsb (String.eqb x) l = true <-> In x l.
Proof.
  rewrite existsb_exists. split.
  - intros [y [Hy He]]. apply String.eqb_eq in He. now subst.
  - intros H. exists x. split; [assumption | apply String.eqb_refl].
Qed.

Lemma set_add_In (x y : string) (l : list string) :
  In y (Js.set_add x l) <-> y = x \/ In y l.
Proof.
  unfold Js.set_add. destruct (existsb (String.eqb x) l) eqn:E.
  - apply existsb_eqb_In in E. split; [tauto | intros [->|H]; assumption].
  - rewrite in_app_iff. simpl. split; intros H; intuition.
Qed.

Lemma set_add_NoDup (x : string) (l : list string) :
  NoDup l -> NoDup (Js.set_add x l).
Proof.
  intros Hl. unfold Js.set_add. destruct (existsb (String.eqb x) l) eqn:E; [assumption|].
  assert (Hx : ~ In x l).
  { intros Hin. apply existsb_eqb_In in Hin. congruence. }
  clear E. induction Hl as [|y l Hy Hl IH]; simpl.
  - repeat constructor. intros [].
  - constructor.
    + rewrite in_app_iff. simpl. intros [H|[H|[]]]; [contradiction|].
      subst. apply Hx. now left.
    + apply IH. intros H. apply Hx. now right.
Qed.

(** The order of [sort]. *)

Lemma ascii_compare_refl (c : ascii) : Ascii.compare c c = Eq.
Proof. apply N.compare_refl. Qed.

Lemma ascii_compare_lt_trans (a b c : ascii) :
  Ascii.compare a b = Lt -> Ascii.compare b c = Lt -> Ascii.compare a c = Lt.
Proof. unfold Ascii.compare. rewrite !N.compare_lt_iff. lia. Qed.

Lemma compare_refl (s : string) : String.compare s s = Eq.
Proof. induction s as [|c s IH]; simpl; [reflexivity|]. now rewrite ascii_compare_refl. Qed.

Lemma compare_lt_trans (a b c : string) :
  String.compare a b = Lt -> String.compare b c = Lt -> String.compare a c = Lt.
Proof.
  revert b c; induction a as [|x a IH]; intros [|y b] [|z c]; simpl;
    try discriminate; try reflexivity.
  destruct (Ascii.compare x y) eqn:Exy; try discriminate;
    destruct (Ascii.compare y z) eqn:Eyz; try discriminate; intros Hab Hbc.
  - apply Ascii.compare_eq_iff in Exy, Eyz. subst.
    rewrite ascii_compare_refl. eauto.
  - apply Ascii.compare_eq_iff in Exy. subst. now rewrite Eyz.
  - apply Ascii.compare_eq_iff in Eyz. subst. now rewrite Exy.
  - now rewrite (ascii_compare_lt_trans _ _ _ Exy Eyz).
Qed.

Lemma ltb_trans (a b c : string) :
  (a <? b)%string = true -> (b <? c)%string = true -> (a <? c)%string = true.
Proof.
  unfold String.ltb. intros Hab Hbc.
  destruct (String.compare a b) eqn:Eab; try discriminate.
  destruct (String.compare b c) eqn:Ebc; try discriminate.
  now rewrite (compare_lt_trans _ _ _ Eab Ebc).
Qed.

Lemma ltb_irrefl (a : string) : (a <? a)%string = false.
Proof. unfold String.ltb. now rewrite compare_refl. Qed.

Lemma leb_iff (a b : string) :
  (a <=? b)%string = true <-> (a <? b)%string = true \/ a = b.
Proof.
  unfold String.leb, String.ltb.
  destruct (String.compare a b) eqn:E; split; intros H; try tauto; try discriminate.
  - right. now apply String.compare_eq_iff.
  - destruct H as [H|H]; [discriminate|]. subst. rewrite compare_refl in E. discriminate.
Qed.

Lemma leb_false_ltb (a b : string) :
  (a <=? b)%string = false -> (b <? a)%string = true.
Proof.
  unfold String.leb, String.ltb. rewrite (String.compare_antisym a b).
  destruct (String.compare b a); simpl; intros H; try discriminate; reflexivity.
Qed.

Lemma insert_In (x y : string) (l : list string) :
  In y (Js.insert x l) <-> y = x \/ In y l.
Proof.
  induction l as [|z l IH]; simpl.
  - intuition.
  - destruct (x <=? z)%string; simpl; [intuition|]. rewrite IH. intuition.
Qed.

Lemma sort_In (y : string) (l : list string) : In y (Js.sort l) <-> In y l.
Proof.
  induction l as [|x l IH]; simpl; [tauto|]. rewrite insert_In, IH. intuition.
Qed.

Lemma insert_ascending (x : string) (l : list string) :
  ~ In x l -> strictlyAscending l -> strictlyAscending (Js.insert x l).
Proof.
  unfold strictlyAscending. intros Hx Hl. induction Hl as [|y l Hl IH Hy]; simpl.
  - repeat constructor.
  - assert (Hxy : x <> y) by (intros ->; apply Hx; now left).
    assert (Hxl : ~ In x l) by (intros H; apply Hx; now right).
    destruct (x <=? y)%string eqn:E.
    + apply leb_iff in E. destruct E as [E|E]; [|contradiction].
      constructor; [now constructor|]. constructor; [assumption|].
      rewrite Forall_forall in Hy |- *. intros z Hz. eapply ltb_trans; eauto.
    + apply leb_false_ltb in E. constructor; [now apply IH|].
      rewrite Forall_forall in Hy |- *. intros z Hz.
      apply insert_In in Hz. destruct Hz as [->|Hz]; auto.
Qed.

Lemma sort_ascending (l : list string) : NoDup l -> strictlyAscending (Js.sort l).
Proof.
  induction 1 as [|x l Hx Hl IH]; simpl.
  - constructor.
  - apply insert_ascending; [|assumption]. now rewrite sort_In.
Qed.

Lemma ascending_NoDup (l : list string) : strictlyAscending l -> NoDup l.
Proof.
  induction 1 as [|x l Hl IH Hx]; constructor; [|assumption].
  intros Hin. rewrite Forall_forall in Hx. specialize (Hx x Hin).
  rewrite ltb_irrefl in Hx. discriminate.
Qed.

(** Two strictly ascending arrangements of the same strings coincide: the
    outcome of sorting distinct strings does not depend on the algorithm. *)
Lemma ascending_unique (l1 l2 : list string) :
  strictlyAscending l1 -> strictlyAscending l2 ->
  (forall x, In x l1 <-> In x l2) -> l1 = l2.
Proof.
  intros H1; revert l2; induction H1 as [|x l1 Hl1 IH Hx]; intros l2 H2 Hin.
  - destruct l2 as [|y l2]; [reflexivity|]. exfalso. apply (Hin y). now left.
  - destruct H2 as [|y l2 Hl2 Hy].
    + exfalso. apply (Hin x). now left.
    + rewrite Forall_forall in Hx, Hy.
      assert (Hxy : x = y).
      { destruct (proj1 (Hin x) (or_introl eq_refl)) as [E|Hx2]; [now symmetry|].
        destruct (proj2 (Hin y) (or_introl eq_refl)) as [E|Hy1]; [assumption|].
        pose proof (ltb_trans _ _ _ (Hx _ Hy1) (Hy _ Hx2)) as Hc.
        rewrite ltb_irrefl in Hc. discriminate. }
      subst y. f_equal. apply IH; [assumption|].
      intros z. split; intros Hz.
      * destruct (proj1 (Hin z) (or_intror Hz)) as [E|H]; [|assumption].
        subst z. specialize (Hx _ Hz). rewrite ltb_irrefl in Hx. discriminate.
      * destruct (proj2 (Hin z) (or_intror Hz)) as [E|H]; [|assumption].
        subst z. specialize (Hy _ Hz). rewrite ltb_irrefl in Hy. discriminate.
Qed.

Lemma sort_unique (l l' : list string) :
  NoDup l -> strictlyAscending l' -> (forall x, In x l' <-> In x l) ->
  l' = Js.sort l.
Proof.
  intros Hl Hl' Hin. apply ascending_unique; [assumption | now apply sort_ascending |].
  intros x. now rewrite sort_In.
Qed.

End JsFacts.

(** * The filter engine *)

Section FilterFacts.

Variable toLowerCase : string -> string.

(** Lower-casing the empty string gives the empty string. *)
Hypothesis toLowerCase_empty : toLowerCase "" = ""%string.

Lemma truthy_or (a b : Js.value) :
  Js.truthy (Js.or a b) = Js.truthy a || Js.truthy b.
Proof. unfold Js.or. destruct (Js.truthy a) eqn:E; simpl; [assumption | reflexivity]. Qed.

Lemma truthy_and (a b : Js.value) :
  Js.truthy (Js.and a b) = Js.truthy a && Js.truthy b.
Proof. unfold Js.and. destruct (Js.truthy a) eqn:E; simpl; [reflexivity | assumption]. Qed.

Lemma keeps_unfold (s f : string) (p : StockItem) :
  keeps toLowerCase s f p =
  (Js.includes (toLowerCase p.(item_name)) (toLowerCase s)
   || (Js.includes (toLowerCase p.(color_code)) (toLowerCase s)
       || match p.(brand) with
          | None => false
          | Some b => negb (b =? "")%string && Js.includes (toLowerCase b) (toLowerCase s)
          end))
  && matchesSize f p.
Proof.
  unfold keeps, matchesSearch. rewrite truthy_and, !truthy_or. simpl.
  destruct p.(brand); [rewrite truthy_and|]; reflexivity.
Qed.

Lemma matchesSize_iff (f : string) (p : StockItem) :
  matchesSize f p = true <-> sizeCondition f p.
Proof.
  unfold matchesSize, sizeCondition.
  rewrite orb_true_iff, String.eqb_eq, existsb_exists.
  split; (intros [H|[sz [Hin H]]]; [now left | right; exists sz]).
  - apply andb_true_iff in H. destruct H as [H1 H2].
    apply String.eqb_eq in H1. apply Z.gtb_lt in H2. repeat split; auto; lia.
  - destruct H as [H1 H2]. split; [assumption|].
    apply andb_true_iff. split; [now apply String.eqb_eq | apply Z.gtb_lt; lia].
Qed.

Lemma matchesSearch_iff (s : string) (p : StockItem) :
  Js.truthy (matchesSearch toLowerCase s p) = true <-> searchCondition toLowerCase s p.
Proof.
  unfold matchesSearch, searchCondition, caseInsensitivelyContained.
  rewrite !truthy_or, !orb_true_iff. cbn [Js.truthy].
  rewrite !JsFacts.includes_iff. split.
  - intros [H|[H|H]]; [tauto | tauto |].
    destruct p.(brand) as [b|]; [|discriminate].
    rewrite truthy_and in H. apply andb_true_iff in H. destruct H as [_ H].
    cbn [Js.truthy] in H. apply JsFacts.includes_iff in H.
    right; right; right. now exists b.
  - intros [H|[H|[H|[b [Hb H]]]]]; [| tauto | tauto |].
    + left. subst s. rewrite toLowerCase_empty. now exists ""%string, (toLowerCase p.(item_name)).
    + rewrite Hb, truthy_and. cbn [Js.truthy].
      destruct (b =? "")%string eqn:E.
      * (* an empty brand is falsy, but then the term lower-cases to the
           empty string and the name matches *)
        apply String.eqb_eq in E. subst b. rewrite toLowerCase_empty in H.
        destruct H as [pre [post H]].
        destruct pre; [|discriminate]. simpl in H.
        destruct (toLowerCase s); [|discriminate].
        left. now exists ""%string, (toLowerCase p.(item_name)).
      * right; right. simpl. now apply JsFacts.includes_iff.
Qed.

Lemma keeps_iff (s f : string) (p : StockItem) :
  keeps toLowerCase s f p = true <->
  searchCondition toLowerCase s p /\ sizeCondition f p.
Proof.
  unfold keeps. rewrite truthy_and, andb_true_iff, matchesSearch_iff.
  cbn [Js.truthy]. now rewrite matchesSize_iff.
Qed.

(** C1. A product of [P] is kept by [filteredProducts(P, s, f)] if and only
    if (1) [s] is empty or is case-insensitively contained in the product's
    [item_name], in its [color_code] or, when a brand is present, in its
    [brand], and (2) [f] is the "all" sentinel or the product has a size
    entry whose label equals [f] and whose count is positive. *)
Theorem filteredProducts_keeps_iff (P : list StockItem) (s f : string) (p : StockItem) :
  In p (filteredProducts toLowerCase (Some P) s f) <->
  In p P /\ searchCondition toLowerCase s p /\ sizeCondition f p.
Proof.
  unfold filteredProducts. now rewrite filter_In, keeps_iff.
Qed.

(** C10. With an empty search term and the "all" sentinel the filter is the
    identity: [filteredProducts(P, "", "all")] is [P]. *)
Theorem filteredProducts_no_filter (P : list StockItem) :
  filteredProducts toLowerCase (Some P) "" "all" = P.
Proof.
  unfold filteredProducts. induction P as [|p P IH]; simpl; [reflexivity|].
  rewrite keeps_unfold, toLowerCase_empty, JsFacts.includes_empty. simpl.
  now rewrite IH.
Qed.

End FilterFacts.

Section FilterShape.

Variable toLowerCase : string -> string.

Lemma filter_Subsequence {A : Type} (keep : A -> bool) (l : list A) :
  Subsequence (filter keep l) l.
Proof.
  induction l as [|x l IH]; simpl.
  - constructor.
  - destruct (keep x); now constructor.
Qed.

Lemma filter_idempotent {A : Type} (keep : A -> bool) (l : list A) :
  filter keep (filter keep l) = filter keep l.
Proof.
  induction l as [|x l IH]; simpl; [reflexivity|].
  destruct (keep x) eqn:E; simpl; [rewrite E; f_equal|]; exact IH.
Qed.

Lemma Subsequence_In {A : Type} (l l' : list A) (x : A) :
  Subsequence l l' -> In x l -> In x l'.
Proof.
  induction 1 as [|y l l' _ IH|y l l' _ IH]; simpl; intros H; intuition.
Qed.

Lemma Subsequence_NoDup {A : Type} (l l' : list A) :
  Subsequence l l' -> NoDup l' -> NoDup l.
Proof.
  induction 1 as [|y l l' Hs IH|y l l' Hs IH]; intros Hn.
  - constructor.
  - inversion Hn as [|? ? Hy Hn']; subst. constructor; [|auto].
    intros Hin. apply Hy. eapply Subsequence_In; eauto.
  - inversion Hn; subst. auto.
Qed.

Lemma Subsequence_map {A B : Type} (g : A -> B) (l l' : list A) :
  Subsequence l l' -> Subsequence (map g l) (map g l').
Proof. induction 1; simpl; now constructor. Qed.

(** C5. [filteredProducts(P, s, f)] is a subsequence of [P]: the surviving
    products keep their relative order, none is duplicated or moved. *)
Theorem filteredProducts_subsequence (P : list StockItem) (s f : string) :
  Subsequence (filteredProducts toLowerCase (Some P) s f) P.
Proof. apply filter_Subsequence. Qed.

(** A snapshot with unique [sku]s stays so after filtering. *)
Corollary filteredProducts_unique_sku (P : list StockItem) (s f : string) :
  NoDup (map sku P) -> NoDup (map sku (filteredProducts toLowerCase (Some P) s f)).
Proof.
  apply Subsequence_NoDup, Subsequence_map, filter_Subsequence.
Qed.

(** C8. Filtering a filtered list again with the same term and size changes
    nothing, and on the empty product list both derivations return the empty
    list. *)
Theorem filteredProducts_idempotent_and_empty (P : list StockItem) (s f : string) :
  filteredProducts toLowerCase (Some (filteredProducts toLowerCase (Some P) s f)) s f
    = filteredProducts toLowerCase (Some P) s f
  /\ filteredProducts toLowerCase (Some []) s f = []
  /\ availableSizes (Some []) = [].
Proof.
  repeat split. apply filter_idempotent.
Qed.

(** C9. While the product list is absent ([undefined], the query has no
    data yet) both derivations return the empty list, whatever the search
    term and the size selection. *)
Theorem derivations_without_products (s f : string) :
  availableSizes None = [] /\ filteredProducts toLowerCase None s f = [].
Proof. split; reflexivity. Qed.

End FilterShape.

(** * The size facets *)

Section SizeFacts.

Lemma addSize_In (l : string) (sizeObjs : list SizeStock) (set : list string) :
  In l (fold_left addSize sizeObjs set) <->
  In l set \/ exists sizeObj, In sizeObj sizeObjs /\ sizeObj.(size) = l /\ sizeObj.(count) > 0.
Proof.
  revert set; induction sizeObjs as [|sz szs IH]; intros set; simpl.
  - split; [tauto | intros [H|[x [[] _]]]; assumption].
  - rewrite IH. unfold addSize at 1. destruct (Z.gtb_spec sz.(count) 0) as [Hc|Hc].
    + rewrite JsFacts.set_add_In. split.
      * intros [[->|H]|[x [Hx H]]]; [right; exists sz; intuition lia | tauto | right; exists x; intuition].
      * intros [H|[x [[->|Hx] [H1 H2]]]]; [tauto | left; left; now symmetry | right; exists x; intuition].
    + split.
      * intros [H|[x [Hx H]]]; [tauto | right; exists x; intuition].
      * intros [H|[x [[->|Hx] [H1 H2]]]]; [tauto | lia | right; exists x; intuition].
Qed.

Lemma addSize_NoDup (sizeObjs : list SizeStock) (set : list string) :
  NoDup set -> NoDup (fold_left addSize sizeObjs set).
Proof.
  revert set; induction sizeObjs as [|sz szs IH]; intros set Hn; simpl; [assumption|].
  apply IH. unfold addSize. destruct (sz.(count) >? 0); [now apply JsFacts.set_add_NoDup | assumption].
Qed.

Lemma addSizes_In (l : string) (P : list StockItem) (set : list string) :
  In l (fold_left addSizes P set) <-> In l set \/ inStock P l.
Proof.
  unfold inStock. revert set; induction P as [|p P IH]; intros set; simpl.
  - split; [tauto | intros [H|[p [sz [[] _]]]]; assumption].
  - rewrite IH. unfold addSizes. rewrite addSize_In. split.
    + intros [[H|[sz H]]|[q [sz [Hq H]]]]; [tauto | right; exists p, sz; intuition | right; exists q, sz; intuition].
    + intros [H|[q [sz [[->|Hq] H]]]]; [tauto | left; right; now exists sz | right; exists q, sz; intuition].
Qed.

Lemma addSizes_NoDup (P : list StockItem) (set : list string) :
  NoDup set -> NoDup (fold_left addSizes P set).
Proof.
  revert set; induction P as [|p P IH]; intros set Hn; simpl; [assumption|].
  apply IH. now apply addSize_NoDup.
Qed.

Lemma collectSizes_In (P : list StockItem) (l : string) :
  In l (collectSizes P) <-> inStock P l.
Proof. unfold collectSizes. rewrite addSizes_In. simpl. tauto. Qed.

Lemma collectSizes_NoDup (P : list StockItem) : NoDup (collectSizes P).
Proof. apply addSizes_NoDup. constructor. Qed.

(** C4. [availableSizes(P)] holds exactly the size labels that have a
    positive count in some product of [P], each once, in ascending
    lexicographic order; a label whose count is zero in every product of [P]
    is not in it. *)
Theorem availableSizes_spec (P : list StockItem) (l : string) :
  (In l (availableSizes (Some P)) <-> inStock P l)
  /\ NoDup (availableSizes (Some P))
  /\ strictlyAscending (availableSizes (Some P))
  /\ ((forall product sizeObj,
         In product P -> In sizeObj product.(sizes) ->
         sizeObj.(size) = l -> sizeObj.(count) = 0) ->
      ~ In l (availableSizes (Some P))).
Proof.
  assert (Hin : In l (availableSizes (Some P)) <-> inStock P l).
  { unfold availableSizes. now rewrite JsFacts.sort_In, collectSizes_In. }
  assert (Hasc : strictlyAscending (availableSizes (Some P))).
  { apply JsFacts.sort_ascending, collectSizes_NoDup. }
  repeat split; try apply Hin; try assumption.
  - now apply JsFacts.ascending_NoDup.
  - intros Hzero H. apply Hin in H. destruct H as [p [sz [Hp [Hsz [Hl Hc]]]]].
    specialize (Hzero p sz Hp Hsz Hl). lia.
Qed.

End SizeFacts.

(** * The error toast *)

Module PageFacts.
Import Page.
Local Open Scope list_scope.

Lemma run_app (st : State) (tr1 tr2 : list Event) :
  run st (tr1 ++ tr2) = run (run st tr1) tr2.
Proof. apply fold_left_app. Qed.

Lemma sameValue_refl (v : option Thrown) : sameValue v v = true.
Proof. destruct v as [[e|i]|]; simpl; auto using Nat.eqb_refl. Qed.

Lemma sameDeps_refl (d : Deps) : sameDeps d d = true.
Proof.
  unfold sameDeps. now rewrite Bool.eqb_reflx, sameValue_refl.
Qed.

(** A render that shows the mounted instance the dependencies it remembers
    does not run the effect. *)
Lemma rerender_silent (st : State) (q : QueryResult) :
  remembered st = Some (deps q) -> toasts (step st (Render q)) = toasts st.
Proof.
  intros H. simpl. unfold effectRuns. now rewrite H, sameDeps_refl.
Qed.

(** The first render of an instance runs the effect. *)
Lemma mount_notifies (st : State) (q : QueryResult) (e : ErrorObject) :
  remembered st = None -> isError q = true -> error q = Some (IsError e) ->
  toasts (step st (Render q)) = toasts st ++ [toastText e].
Proof.
  intros Hm Hi He. simpl. unfold effectRuns, effect. now rewrite Hm, Hi, He.
Qed.

Lemma toasts_while_mounted (tr : list Event) :
  forall st, forallb isRender tr = true ->
  toasts (run st tr) =
  toasts st ++ map toastText (errorEntries (remembered st) (observed tr)).
Proof.
  induction tr as [|ev tr IH]; intros st Hall.
  - simpl. now rewrite app_nil_r.
  - destruct ev as [q|]; [|discriminate]. simpl in Hall.
    change (run st (Render q :: tr)) with (run (step st (Render q)) tr).
    rewrite (IH _ Hall). cbn [step remembered toasts observed errorEntries].
    unfold effectRuns, effect.
    destruct (isError q) eqn:Hi; [destruct (error q) as [[e|i]|] eqn:He|];
      destruct (remembered st) as [d|]; try destruct (sameDeps d (deps q));
      simpl; rewrite <- ?app_assoc; reflexivity.
Qed.

(** C2, as the code has it.  While the page stays mounted, [toast.error] is
    called exactly once, with "Shop error: " and the error's message, for
    each render that enters an error state (its [(isError, error)] differs
    from the previous render's, or it is the first render, and it carries an
    [Error]); rendering the same result again does not call it; unmounting
    and mounting again while the result is still that error calls it again. *)
Theorem toast_once_per_entry_while_mounted (tr : list Event) (q : QueryResult) :
  forallb isRender tr = true ->
  toasts (run init tr) = map toastText (errorEntries None (observed tr))
  /\ toasts (run init (tr ++ [Render q; Render q])) = toasts (run init (tr ++ [Render q]))
  /\ (forall e, isError q = true -> error q = Some (IsError e) ->
      toasts (run init (tr ++ [Render q; Unmount; Render q]))
      = toasts (run init (tr ++ [Render q])) ++ [toastText e]).
Proof.
  intros Hall. split; [|split].
  - now rewrite toasts_while_mounted.
  - change [Render q; Render q] with ([Render q] ++ [Render q]).
    rewrite app_assoc, (run_app _ (tr ++ [Render q])).
    apply rerender_silent. now rewrite run_app.
  - intros e Hi He.
    change [Render q; Unmount; Render q] with ([Render q] ++ [Unmount; Render q]).
    rewrite app_assoc, (run_app _ (tr ++ [Render q])).
    cbn [run fold_left].
    now rewrite (mount_notifies (step (run init (tr ++ [Render q])) Unmount) q e eq_refl Hi He).
Qed.

End PageFacts.

(** C2, as the specification words it, fails: a page that is unmounted and
    mounted again while the query still holds the same error raises the toast
    a second time, although no new entry into an error state was observed. *)
Lemma remount_notifies_again :
  Page.toasts (Page.run Page.init [Page.Render failed; Page.Unmount; Page.Render failed])
    = ["Shop error: boom"; "Shop error: boom"]%string
  /\ Page.errorEntries None (Page.observed [Page.Render failed; Page.Unmount; Page.Render failed])
    = [boom]
  /\ ~ notifiesOncePerEntry.
Proof.
  split; [reflexivity | split; [reflexivity|]].
  intros H. specialize (H [Page.Render failed; Page.Unmount; Page.Render failed]).
  vm_compute in H. discriminate H.
Qed.

Lemma toast_once_per_entry_while_mounted_witness :
  Page.toasts (Page.run Page.init [Page.Render pending; Page.Render failed])
    = ["Shop error: boom"]%string
  /\ Page.toasts (Page.run Page.init [Page.Render pending; Page.Render failed; Page.Render failed; Page.Render failed])
    = ["Shop error: boom"]%string
  /\ Page.toasts (Page.run Page.init [Page.Render pending; Page.Render failed; Page.Render failed; Page.Unmount; Page.Render failed])
    = ["Shop error: boom"; "Shop error: boom"]%string.
Proof.
  destruct (PageFacts.toast_once_per_entry_while_mounted
              [Page.Render pending; Page.Render failed] failed eq_refl) as [H1 [H2 H3]].
  split; [exact H1|]. split.
  - exact (eq_trans H2 eq_refl).
  - exact (eq_trans (H3 boom eq_refl eq_refl) eq_refl).
Defined.

(** * The store protocol *)

Module StoreFacts.
Import CatalogStore.
Local Open Scope list_scope.

Section Protocol.

Variable fetchCatalog : nat -> Z * (list StockItem + Page.ErrorObject).

Lemma attempt_fetches (options : QueryOptions) (n : nat) :
  forall w, fetches (fst (attempt options fetchCatalog n w)) = fetches w.
Proof.
  induction n as [|n IH]; intros w; simpl;
    destruct (fetchCatalog (attempts w)) as [latency [ps|e]]; simpl; try reflexivity.
  now rewrite IH.
Qed.

Lemma fetch_fetches (options : QueryOptions) (s : Snapshot) (w : World) :
  fetches (snd (fetch options fetchCatalog s w)) = S (fetches w).
Proof.
  unfold fetch.
  pose proof (attempt_fetches options (retry options)
                (mkWorld (clock w) (S (fetches w)) (attempts w) (waits w))) as H.
  destruct (attempt options fetchCatalog (retry options) _) as [w1 [ps|e]]; exact H.
Qed.

(** A fetch that ends in [Error] leaves the cached list and its time stamp
    alone. *)
Lemma fetch_error_keeps (options : QueryOptions) (s : Snapshot) (w : World) :
  status (fst (fetch options fetchCatalog s w)) = Error ->
  products (fst (fetch options fetchCatalog s w)) = products s /\
  fetchedAt (fst (fetch options fetchCatalog s w)) = fetchedAt s.
Proof.
  unfold fetch.
  destruct (attempt options fetchCatalog (retry options) _) as [w1 [ps|e]]; simpl.
  - discriminate.
  - now split.
Qed.

(** With [n] retries, [n + 1] failures in a row are what it takes to fail:
    the store then made [n + 1] attempts, waited [n] times and reports the
    last failure. *)
Lemma attempt_all_fail (options : QueryOptions) (n : nat) :
  forall w,
    (forall i, (i <= n)%nat -> exists l e, fetchCatalog (attempts w + i) = (l, inr e)) ->
    exists w' e,
      attempt options fetchCatalog n w = (w', inr e) /\
      (exists l, fetchCatalog (attempts w + n) = (l, inr e)) /\
      attempts w' = (attempts w + S n)%nat /\
      waits w' = waits w ++ repeat (retryDelay options) n.
Proof.
  induction n as [|n IH]; intros w Hfail.
  - destruct (Hfail 0%nat (le_n _)) as [l [e H]]. rewrite Nat.add_0_r in H.
    simpl. rewrite H. eexists _, e. split; [reflexivity|]. simpl.
    split; [exists l; now rewrite Nat.add_0_r|].
    split; [lia | now rewrite app_nil_r].
  - destruct (Hfail 0%nat (Nat.le_0_l _)) as [l [e H]]. rewrite Nat.add_0_r in H.
    cbn [attempt]. rewrite H.
    set (w1 := mkWorld _ _ _ _).
    destruct (IH w1) as [w' [e' [Ha [[l' Hl] [Hn Hw]]]]].
    { intros i Hi. destruct (Hfail (S i) (le_n_S _ _ Hi)) as [li [ei Hi']].
      exists li, ei. subst w1. simpl.
      replace (S (attempts w + i)) with (attempts w + S i)%nat by lia. exact Hi'. }
    exists w', e'. subst w1. simpl in *.
    split; [exact Ha|]. split; [|split].
    + exists l'. replace (attempts w + S n)%nat with (S (attempts w + n)) by lia. exact Hl.
    + lia.
    + rewrite Hw, <- app_assoc. reflexivity.
Qed.

Lemma toasts_of_fetch (pg : Page.State) (s s' : Snapshot) :
  Page.toasts (Page.run pg (rendersOfFetch s s')) =
  match status s', failure s' with
  | Error, Some e => Page.toasts pg ++ [Page.toastText e]
  | _, _ => Page.toasts pg
  end.
Proof.
  unfold rendersOfFetch, view, Page.run. simpl.
  unfold Page.effectRuns, Page.effect. simpl.
  destruct (Page.remembered pg) as [d|], (status s'), (failure s'); simpl;
    try destruct (Page.sameDeps d _); reflexivity.
Qed.

(** C3.  With the page's options ([retry: 1], [retryDelay: 1000]) a fetch
    whose first attempt fails waits 1000 ms and makes exactly one more
    attempt.  If that one succeeds the store ends in [Success] with its
    data and no toast is raised; if it fails too the store ends in [Error]
    after exactly two attempts and a mounted page raises exactly one toast. *)
Theorem retry_once_after_fixed_delay
    (s : Snapshot) (w : World) (pg : Page.State) (l0 l1 : Z) (e0 : Page.ErrorObject) :
  fetchCatalog (attempts w) = (l0, inr e0) ->
  let r := fetch shopQuery fetchCatalog s w in
  (forall d, fetchCatalog (S (attempts w)) = (l1, inl d) ->
     status (fst r) = Success /\
     products (fst r) = Some d /\
     fetchedAt (fst r) = Some (clock w + l0 + 1000 + l1) /\
     attempts (snd r) = (2 + attempts w)%nat /\
     waits (snd r) = waits w ++ [1000] /\
     Page.toasts (Page.run pg (rendersOfFetch s (fst r))) = Page.toasts pg)
  /\
  (forall e1, fetchCatalog (S (attempts w)) = (l1, inr e1) ->
     status (fst r) = Error /\
     failure (fst r) = Some e1 /\
     attempts (snd r) = (2 + attempts w)%nat /\
     waits (snd r) = waits w ++ [1000] /\
     Page.toasts (Page.run pg (rendersOfFetch s (fst r)))
       = Page.toasts pg ++ [Page.toastText e1]).
Proof.
  intros H0 r. split; intros x H1; subst r;
    rewrite toasts_of_fetch; unfold fetch; simpl; rewrite H0; simpl; rewrite H1; simpl;
    repeat split; reflexivity.
Qed.

(** C6.  With the page's [staleTime] of 5 minutes, [load()] on a snapshot
    younger than 300 seconds returns it without fetching.  From the empty
    store, a [load()] that succeeds followed by a second one within the
    window makes one fetch in all, and a third one once 300 seconds have
    passed makes a second fetch. *)
Theorem load_within_staleness_window (s : Snapshot) (w : World) :
  (forall d t,
     products s = Some d -> fetchedAt s = Some t -> clock w - t < seconds 300 ->
     load shopQuery fetchCatalog s w = (s, w))
  /\
  (forall l0 d dt1 dt2,
     fetchCatalog (attempts w) = (l0, inl d) ->
     dt1 < seconds 300 -> seconds 300 <= dt1 + dt2 ->
     let once := session shopQuery fetchCatalog (empty, w) [DoLoad] in
     let twice := session shopQuery fetchCatalog (empty, w) [DoLoad; Elapse dt1; DoLoad] in
     let thrice := session shopQuery fetchCatalog (empty, w)
                     [DoLoad; Elapse dt1; DoLoad; Elapse dt2; DoLoad] in
     fetches (snd once) = (1 + fetches w)%nat /\
     products (fst once) = Some d /\
     fst twice = fst once /\
     fetches (snd twice) = (1 + fetches w)%nat /\
     attempts (snd twice) = (1 + attempts w)%nat /\
     fetches (snd thrice) = (2 + fetches w)%nat).
Proof.
  unfold seconds. split.
  - intros d t Hp Ht Hage. unfold load, fresh. rewrite Hp, Ht. simpl.
    destruct (Z.ltb_spec (clock w - t) 300000); [reflexivity | lia].
  - intros l0 d dt1 dt2 H0 H1 H2.
    set (s1 := mkSnapshot (Some d) (Some (clock w + l0)) Success None).
    set (w1 := mkWorld (clock w + l0) (S (fetches w)) (S (attempts w)) (waits w)).
    assert (Hload : load shopQuery fetchCatalog empty w = (s1, w1)).
    { unfold load, fresh, fetch. simpl. now rewrite H0. }
    assert (Hfresh : load shopQuery fetchCatalog s1 (advance dt1 w1) = (s1, advance dt1 w1)).
    { unfold load, fresh. simpl.
      destruct (Z.ltb_spec (clock w + l0 + dt1 - (clock w + l0)) 300000); [reflexivity | lia]. }
    assert (Hstale : fresh shopQuery s1 (advance dt2 (advance dt1 w1)) = false).
    { unfold fresh. simpl.
      destruct (Z.ltb_spec (clock w + l0 + dt1 + dt2 - (clock w + l0)) 300000); [lia | reflexivity]. }
    unfold session. cbn [fold_left exec fst snd].
    rewrite Hload. cbn [fst snd]. rewrite Hfresh. cbn [fst snd].
    repeat split; try reflexivity.
    unfold load. rewrite Hstale. now rewrite fetch_fetches.
Qed.

(** C7.  No call that leaves the store in [Error] touches the cached product
    list or its time stamp, whatever they were; in particular a refetch whose
    attempt and retry both fail ends in [Error] with the snapshot it found. *)
Theorem failed_refresh_keeps_snapshot (s : Snapshot) (w : World) :
  (forall options c,
     status (fst (exec options fetchCatalog (s, w) c)) = Error ->
     products (fst (exec options fetchCatalog (s, w) c)) = products s /\
     fetchedAt (fst (exec options fetchCatalog (s, w) c)) = fetchedAt s)
  /\
  (forall l0 l1 e0 e1,
     fetchCatalog (attempts w) = (l0, inr e0) ->
     fetchCatalog (S (attempts w)) = (l1, inr e1) ->
     fst (refetch shopQuery fetchCatalog s w)
       = mkSnapshot (products s) (fetchedAt s) Error (Some e1)).
Proof.
  split.
  - intros options [| |dt]; cbn [exec fst snd].
    + unfold load. destruct (fresh options s w); [now split | apply fetch_error_keeps].
    + apply fetch_error_keeps.
    + now split.
  - intros l0 l1 e0 e1 H0 H1. unfold refetch, fetch. simpl.
    rewrite H0. simpl. now rewrite H1.
Qed.

End Protocol.

End StoreFacts.

(** * The theorems at work on the sample data *)

Lemma filteredProducts_keeps_iff_witness :
  In redShirt (filteredProducts asciiLower (Some [redShirt]) "red" "M") <->
  In redShirt [redShirt] /\
  searchCondition asciiLower "red" redShirt /\ sizeCondition "M" redShirt.
Proof.
  exact (filteredProducts_keeps_iff asciiLower eq_refl [redShirt] "red" "M" redShirt).
Defined.

Lemma filteredProducts_no_filter_witness :
  filteredProducts asciiLower (Some [redShirt; redShirt]) "" "all" = [redShirt; redShirt].
Proof.
  exact (filteredProducts_no_filter asciiLower eq_refl [redShirt; redShirt]).
Defined.

Lemma availableSizes_spec_witness :
  ~ In "L"%string (availableSizes (Some [redShirt])).
Proof.
  apply (proj2 (proj2 (proj2 (availableSizes_spec [redShirt] "L")))).
  intros product sizeObj Hp Hs Hl.
  destruct Hp as [<-|[]]. simpl in Hs.
  destruct Hs as [<-|[<-|[]]]; [discriminate Hl | reflexivity].
Defined.

Lemma retry_once_after_fixed_delay_witness :
  (let r := CatalogStore.fetch shopQuery failsOnce CatalogStore.empty world0 in
   CatalogStore.status (fst r) = CatalogStore.Success /\
   CatalogStore.products (fst r) = Some [redShirt] /\
   CatalogStore.fetchedAt (fst r) = Some 1050 /\
   CatalogStore.attempts (snd r) = 2%nat /\
   CatalogStore.waits (snd r) = [1000] /\
   Page.toasts (Page.run Page.init (CatalogStore.rendersOfFetch CatalogStore.empty (fst r))) = [])
  /\
  (let r := CatalogStore.fetch shopQuery alwaysFails CatalogStore.empty world0 in
   CatalogStore.status (fst r) = CatalogStore.Error /\
   CatalogStore.failure (fst r) = Some (Page.mkError 1 "down") /\
   CatalogStore.attempts (snd r) = 2%nat /\
   CatalogStore.waits (snd r) = [1000] /\
   Page.toasts (Page.run Page.init (CatalogStore.rendersOfFetch CatalogStore.empty (fst r)))
     = ["Shop error: down"%string]).
Proof.
  split.
  - exact (proj1 (StoreFacts.retry_once_after_fixed_delay failsOnce
                    CatalogStore.empty world0 Page.init 20 30 boom eq_refl)
                 [redShirt] eq_refl).
  - exact (proj2 (StoreFacts.retry_once_after_fixed_delay alwaysFails
                    CatalogStore.empty world0 Page.init 20 20 (Page.mkError 0 "down") eq_refl)
                 (Page.mkError 1 "down") eq_refl).
Defined.

Lemma load_within_staleness_window_witness :
  CatalogStore.load shopQuery alwaysSucceeds
    (CatalogStore.mkSnapshot (Some [redShirt]) (Some 30) CatalogStore.Success None)
    (CatalogStore.mkWorld 299999 1 1 [])
  = (CatalogStore.mkSnapshot (Some [redShirt]) (Some 30) CatalogStore.Success None,
     CatalogStore.mkWorld 299999 1 1 [])
  /\
  CatalogStore.fetches (snd (CatalogStore.session shopQuery alwaysSucceeds
      (CatalogStore.empty, world0)
      [CatalogStore.DoLoad; CatalogStore.Elapse 299999; CatalogStore.DoLoad])) = 1%nat
  /\
  CatalogStore.fetches (snd (CatalogStore.session shopQuery alwaysSucceeds
      (CatalogStore.empty, world0)
      [CatalogStore.DoLoad; CatalogStore.Elapse 299999; CatalogStore.DoLoad;
       CatalogStore.Elapse 1; CatalogStore.DoLoad])) = 2%nat.
Proof.
  split.
  - apply (proj1 (StoreFacts.load_within_staleness_window alwaysSucceeds
                    (CatalogStore.mkSnapshot (Some [redShirt]) (Some 30) CatalogStore.Success None)
                    (CatalogStore.mkWorld 299999 1 1 [])) [redShirt] 30);
      [reflexivity | reflexivity | unfold seconds; simpl; lia].
  - destruct (proj2 (StoreFacts.load_within_staleness_window alwaysSucceeds
                       CatalogStore.empty world0) 30 [redShirt] 299999 1)
      as [_ [_ [_ [H2 [_ H3]]]]];
      [reflexivity | unfold seconds; lia | unfold seconds; lia |].
    split; [exact H2 | exact H3].
Defined.

Lemma failed_refresh_keeps_snapshot_witness :
  fst (CatalogStore.refetch shopQuery alwaysFails
         (CatalogStore.mkSnapshot (Some [redShirt]) (Some 30) CatalogStore.Success None)
         (CatalogStore.mkWorld 400000 1 1 []))
  = CatalogStore.mkSnapshot (Some [redShirt]) (Some 30) CatalogStore.Error
      (Some (Page.mkError 2 "down"))
  /\
  CatalogStore.products (fst (CatalogStore.exec shopQuery alwaysFails
      (CatalogStore.mkSnapshot (Some [redShirt]) (Some 30) CatalogStore.Success None,
       CatalogStore.mkWorld 400000 1 1 []) CatalogStore.DoLoad))
  = Some [redShirt].
Proof.
  split.
  - exact (proj2 (StoreFacts.failed_refresh_keeps_snapshot alwaysFails
                    (CatalogStore.mkSnapshot (Some [redShirt]) (Some 30) CatalogStore.Success None)
                    (CatalogStore.mkWorld 400000 1 1 []))
                 20 20 (Page.mkError 1 "down") (Page.mkError 2 "down") eq_refl eq_refl).
  - exact (proj1 (proj1 (StoreFacts.failed_refresh_keeps_snapshot alwaysFails
                    (CatalogStore.mkSnapshot (Some [redShirt]) (Some 30) CatalogStore.Success None)
                    (CatalogStore.mkWorld 400000 1 1 []))
                 shopQuery CatalogStore.DoLoad eq_refl)).
Defined.

(** * Further properties of the derivations *)

Section ListFacts.

Context {A : Type}.

Lemma Subsequence_nil (l : list A) : Subsequence [] l.
Proof. induction l; now constructor. Qed.

Lemma filter_stronger (f g : A -> bool) (l : list A) :
  (forall x, f x = true -> g x = true) ->
  Subsequence (filter f l) (filter g l).
Proof.
  intros Hfg. induction l as [|x l IH]; simpl; [constructor|].
  destruct (f x) eqn:Ef.
  - rewrite (Hfg x Ef). now constructor.
  - destruct (g x); [now constructor | assumption].
Qed.

Lemma filter_and (f g : A -> bool) (l : list A) :
  filter f (filter g l) = filter (fun x => g x && f x) l.
Proof.
  induction l as [|x l IH]; simpl; [reflexivity|].
  destruct (g x); simpl; [destruct (f x)|]; now rewrite IH.
Qed.

Lemma filter_swap (f g : A -> bool) (l : list A) :
  filter f (filter g l) = filter g (filter f l).
Proof.
  rewrite !filter_and. apply filter_ext. intros x. apply andb_comm.
Qed.

End ListFacts.

Section SizeFacets.

Lemma availableSizes_In (P : list StockItem) (l : string) :
  In l (availableSizes (Some P)) <-> inStock P l.
Proof. unfold availableSizes. now rewrite JsFacts.sort_In, collectSizes_In. Qed.

Lemma availableSizes_ascending (P : list StockItem) :
  strictlyAscending (availableSizes (Some P)).
Proof. apply JsFacts.sort_ascending, collectSizes_NoDup. Qed.

Lemma inStock_incl (P Q : list StockItem) (l : string) :
  (forall p, In p P -> In p Q) -> inStock P l -> inStock Q l.
Proof.
  intros Hi [p [sz [Hp H]]]. exists p, sz. split; [now apply Hi | exact H].
Qed.

(** A strictly ascending list whose elements all occur in another one is a
    subsequence of it. *)
Lemma ascending_incl_Subsequence (l2 : list string) :
  forall l1, strictlyAscending l1 -> strictlyAscending l2 ->
             (forall x, In x l1 -> In x l2) -> Subsequence l1 l2.
Proof.
  unfold strictlyAscending.
  induction l2 as [|y l2 IH]; intros l1 H1 H2 Hin.
  - destruct l1 as [|x l1]; [constructor|]. destruct (Hin x (or_introl eq_refl)).
  - inversion H2 as [|? ? H2' Hy]; subst. rewrite Forall_forall in Hy.
    destruct l1 as [|x l1]; [apply Subsequence_nil|].
    inversion H1 as [|? ? H1' Hx]; subst. rewrite Forall_forall in Hx.
    destruct (string_dec x y) as [->|Hxy].
    + apply sub_keep, IH; try assumption.
      intros z Hz. destruct (Hin z (or_intror Hz)) as [E|Hz2]; [|assumption].
      subst z. specialize (Hx _ Hz). rewrite JsFacts.ltb_irrefl in Hx. discriminate.
    + apply sub_drop, IH; try assumption.
      assert (Hyx : (y <? x)%string = true).
      { destruct (Hin x (or_introl eq_refl)) as [E|Hx2]; [now symmetry in E | auto]. }
      intros z [<-|Hz].
      * destruct (Hin x (or_introl eq_refl)) as [E|Hx2]; [now symmetry in E | assumption].
      * destruct (Hin z (or_intror Hz)) as [E|Hz2]; [|assumption].
        subst z. pose proof (JsFacts.ltb_trans _ _ _ Hyx (Hx _ Hz)) as Hc.
        rewrite JsFacts.ltb_irrefl in Hc. discriminate.
Qed.

(** The size row does not depend on the order in which the catalog lists
    the products. *)
Theorem availableSizes_permutation (P Q : list StockItem) :
  Permutation P Q -> availableSizes (Some P) = availableSizes (Some Q).
Proof.
  intros Hperm. apply JsFacts.ascending_unique; try apply availableSizes_ascending.
  intros l. rewrite !availableSizes_In. split; apply inStock_incl; intros p.
  - now apply Permutation_in.
  - apply Permutation_in. now symmetry.
Qed.

End SizeFacets.

Section FilterMore.

Variable toLowerCase : string -> string.

Hypothesis toLowerCase_empty : toLowerCase "" = ""%string.

Lemma keeps_matchesSize (s f : string) (p : StockItem) :
  keeps toLowerCase s f p = true -> matchesSize f p = true.
Proof. rewrite keeps_unfold. intros H. now apply andb_true_iff in H. Qed.

Lemma keeps_all (s f : string) (p : StockItem) :
  keeps toLowerCase s f p = true -> keeps toLowerCase s "all" p = true.
Proof.
  rewrite !keeps_unfold. intros H. apply andb_true_iff in H. destruct H as [H _].
  now rewrite H.
Qed.

Lemma keeps_split (s f : string) (p : StockItem) :
  keeps toLowerCase s "all" p && keeps toLowerCase "" f p = keeps toLowerCase s f p.
Proof.
  rewrite !keeps_unfold, toLowerCase_empty, JsFacts.includes_empty.
  change (matchesSize "all" p) with true. simpl. now rewrite andb_true_r.
Qed.

Lemma available_size_kept (P : list StockItem) (l : string) :
  In l (availableSizes (Some P)) ->
  exists p, In p (filteredProducts toLowerCase (Some P) "" l).
Proof.
  intros Hl. apply availableSizes_In in Hl.
  destruct Hl as [p [sz [Hp Hsz]]]. exists p. apply filter_In. split; [assumption|].
  apply (keeps_iff toLowerCase toLowerCase_empty). split; [now left|].
  right. now exists sz.
Qed.

(** The sizes offered for a filtered list are among those offered for the
    whole catalog, in the same order. *)
Theorem availableSizes_of_filtered (P : list StockItem) (s f : string) :
  Subsequence (availableSizes (Some (filteredProducts toLowerCase (Some P) s f)))
              (availableSizes (Some P)).
Proof.
  apply ascending_incl_Subsequence; try apply availableSizes_ascending.
  intros l. rewrite !availableSizes_In. apply inStock_incl.
  intros p Hp. apply filter_In in Hp. tauto.
Qed.

(** Every size the row offers selects something when nothing is typed in
    the search box: some product is kept, and unless the label is the
    sentinel itself every kept product has that size in stock. *)
Theorem offered_size_selects_products (P : list StockItem) (l : string) :
  In l (availableSizes (Some P)) ->
  (exists p, In p (filteredProducts toLowerCase (Some P) "" l)) /\
  (l <> "all"%string ->
   forall p, In p (filteredProducts toLowerCase (Some P) "" l) ->
             exists sizeObj, In sizeObj p.(sizes) /\
                             sizeObj.(size) = l /\ sizeObj.(count) > 0).
Proof.
  intros Hl. split.
  - now apply available_size_kept.
  - intros Hne p Hp. apply filter_In in Hp. destruct Hp as [_ Hk].
    apply keeps_matchesSize, matchesSize_iff in Hk.
    destruct Hk as [Hall|Hsz]; [contradiction | exact Hsz].
Qed.

(** Two filter passes compose: searching first and then picking a size from
    the result is the same as doing both at once. *)
Theorem search_then_size (P : list StockItem) (s f : string) :
  filteredProducts toLowerCase
    (Some (filteredProducts toLowerCase (Some P) s "all")) "" f
  = filteredProducts toLowerCase (Some P) s f.
Proof.
  unfold filteredProducts. rewrite filter_and. apply filter_ext.
  intros p. apply keeps_split.
Qed.

End FilterMore.

Section FilterOrder.

Variable toLowerCase : string -> string.

(** A selection that is neither the sentinel nor among the available sizes
    (a size that sold out since it was picked) hides every product, whatever
    the search term. *)
Theorem unavailable_size_hides_all (P : list StockItem) (s f : string) :
  f <> "all"%string -> ~ In f (availableSizes (Some P)) ->
  filteredProducts toLowerCase (Some P) s f = [].
Proof.
  intros Hne Hnot. destruct (filteredProducts toLowerCase (Some P) s f) as [|p r] eqn:E;
    [reflexivity|]. exfalso.
  assert (Hp : In p (filteredProducts toLowerCase (Some P) s f)) by (rewrite E; now left).
  apply filter_In in Hp. destruct Hp as [Hin Hk].
  apply keeps_matchesSize, matchesSize_iff in Hk.
  destruct Hk as [Hall|[sz Hsz]]; [contradiction|].
  apply Hnot, availableSizes_In. now exists p, sz.
Qed.

(** Choosing a size only removes products from what the search alone
    shows. *)
Theorem size_selection_narrows (P : list StockItem) (s f : string) :
  Subsequence (filteredProducts toLowerCase (Some P) s f)
              (filteredProducts toLowerCase (Some P) s "all").
Proof. apply filter_stronger. intros p. apply keeps_all. Qed.

(** Filtering twice, with any two terms and sizes, gives the same list in
    either order. *)
Theorem filters_commute (P : list StockItem) (s f s' f' : string) :
  filteredProducts toLowerCase (Some (filteredProducts toLowerCase (Some P) s f)) s' f'
  = filteredProducts toLowerCase (Some (filteredProducts toLowerCase (Some P) s' f')) s f.
Proof. apply filter_swap. Qed.

End FilterOrder.

(** * The size row and the main area *)

Module ShopFacts.
Import Shop.
Local Open Scope list_scope.

Lemma highlighted_sizes (sel : string) (sizes : list string) :
  filter highlighted
    (map (fun size => mkButton (Some size) size (sel =? size)%string (SetSelectedSize size)) sizes)
  = map (fun size => mkButton (Some size) size true (SetSelectedSize size))
        (filter (String.eqb sel) sizes).
Proof.
  induction sizes as [|x sizes IH]; simpl; [reflexivity|].
  destruct (sel =? x)%string eqn:E; simpl; now rewrite IH.
Qed.

Lemma occurrences_NoDup (sel : string) (sizes : list string) :
  NoDup sizes ->
  List.length (filter (String.eqb sel) sizes)
  = if existsb (String.eqb sel) sizes then 1%nat else 0%nat.
Proof.
  induction 1 as [|x sizes Hx Hn IH]; simpl; [reflexivity|].
  destruct (sel =? x)%string eqn:E; simpl.
  - apply String.eqb_eq in E. subst x. rewrite IH.
    destruct (existsb (String.eqb sel) sizes) eqn:Ex; [|reflexivity].
    apply JsFacts.existsb_eqb_In in Ex. contradiction.
  - exact IH.
Qed.

(** How many buttons of the size row are highlighted: the "All Sizes" button
    when the selection is the sentinel, plus the button of the selected size
    when that size is available.  So exactly one is highlighted in the
    ordinary cases, none when the selected size is no longer available, and
    two when a size is itself labelled "all". *)
Theorem highlighted_buttons (products : option (list StockItem)) (ui : Ui) :
  List.length (filter highlighted (sizeButtons (availableSizes products) ui))
  = ((if (ui.(selectedSize) =? "all")%string then 1 else 0)
     + (if existsb (String.eqb ui.(selectedSize)) (availableSizes products) then 1 else 0))%nat.
Proof.
  assert (Hn : NoDup (availableSizes products)).
  { destruct products as [P|]; [|constructor].
    apply JsFacts.ascending_NoDup, availableSizes_ascending. }
  unfold sizeButtons. cbn [filter highlighted].
  destruct (ui.(selectedSize) =? "all")%string; cbn [List.length];
    now rewrite highlighted_sizes, length_map, occurrences_NoDup.
Qed.

(** Clicking a button of the size row highlights that button, and leaves the
    row otherwise as it was (same keys and texts in the same places). *)
Theorem click_highlights (sizes : list string) (ui : Ui) (i : nat) (b : Button) :
  nth_error (sizeButtons sizes ui) i = Some b ->
  exists b',
    nth_error (sizeButtons sizes (handle ui b.(onClick))) i = Some b' /\
    b'.(highlighted) = true /\
    map key (sizeButtons sizes (handle ui b.(onClick))) = map key (sizeButtons sizes ui) /\
    map text (sizeButtons sizes (handle ui b.(onClick))) = map text (sizeButtons sizes ui).
Proof.
  intros Hb.
  assert (Hkeys : forall ui', map key (sizeButtons sizes ui') = map key (sizeButtons sizes ui)).
  { intros ui'. unfold sizeButtons. simpl. now rewrite !map_map. }
  assert (Htexts : forall ui', map text (sizeButtons sizes ui') = map text (sizeButtons sizes ui)).
  { intros ui'. unfold sizeButtons. simpl. now rewrite !map_map. }
  destruct i as [|i]; simpl in Hb.
  - inversion Hb; subst b; clear Hb. eexists. split; [reflexivity|].
    split; [reflexivity|]. split; [apply Hkeys | apply Htexts].
  - rewrite nth_error_map in Hb.
    destruct (nth_error sizes i) as [size|] eqn:Hs; [|discriminate].
    simpl in Hb. inversion Hb; subst b; clear Hb.
    eexists. split; [|split; [|split; [apply Hkeys | apply Htexts]]].
    + cbn [sizeButtons nth_error]. rewrite nth_error_map, Hs. reflexivity.
    + cbn. apply String.eqb_refl.
Qed.

Section Rendering.

Variable toLowerCase : string -> string.

Hypothesis toLowerCase_empty : toLowerCase "" = ""%string.

Lemma body_of_loaded (q : Page.QueryResult) (filtered : list StockItem) :
  Page.isLoading q = false -> Page.isError q = false ->
  body q filtered =
  match filtered with
  | [] => NoProducts
  | _ :: _ => Grid (map (fun p => mkCard p.(sku) p) filtered)
  end.
Proof. intros Hl He. unfold body. rewrite Hl, He. now destruct filtered. Qed.

(** With the search box empty and the catalog loaded, clicking any size
    button of the row brings up a grid that is not empty: the row never
    offers a size that leads to "No products found". *)
Theorem offered_size_shows_grid
    (q : Page.QueryResult) (P : list StockItem) (ui : Ui) (b : Button) (l : string) :
  Page.data q = Some P -> Page.isLoading q = false -> Page.isError q = false ->
  ui.(searchTerm) = ""%string ->
  In b (sizeButtons (availableSizes (Some P)) ui) -> b.(key) = Some l ->
  exists card cards,
    main (render toLowerCase q (handle ui b.(onClick))) = Grid (card :: cards) /\
    map product (card :: cards) = filteredProducts toLowerCase (Some P) "" l.
Proof.
  intros Hd Hl He Hs Hb Hk. destruct Hb as [<-|Hb]; [discriminate Hk|].
  apply in_map_iff in Hb. destruct Hb as [l' [<- Hin]]. simpl in Hk.
  inversion Hk; subst l'; clear Hk.
  destruct (available_size_kept toLowerCase toLowerCase_empty P l Hin) as [p Hp].
  unfold render. cbn [main handle onClick searchTerm selectedSize].
  rewrite Hd, Hs, (body_of_loaded _ _ Hl He).
  destruct (filteredProducts toLowerCase (Some P) "" l) as [|p0 r]; [destruct Hp|].
  exists (mkCard p0.(sku) p0), (map (fun p1 => mkCard p1.(sku) p1) r).
  split; [reflexivity|].
  cbn [map product]. f_equal. rewrite map_map. cbn [product]. apply map_id.
Qed.

End Rendering.

Lemma NoDup_map_Some {A : Type} (l : list A) : NoDup l -> NoDup (map Some l).
Proof.
  induction 1 as [|x l Hx Hn IH]; simpl; constructor; [|assumption].
  rewrite in_map_iff. intros [y [Hy Hin]]. inversion Hy; subst. contradiction.
Qed.

Section Keys.

Variable toLowerCase : string -> string.

(** React keys are unique among siblings: always in the size row, and in
    the grid whenever the catalog's [sku]s are unique. *)
Theorem keys_unique (q : Page.QueryResult) (ui : Ui) :
  (forall bs, filters (render toLowerCase q ui) = Some bs -> NoDup (map key bs))
  /\
  (forall P cards,
     Page.data q = Some P -> NoDup (map sku P) ->
     main (render toLowerCase q ui) = Grid cards ->
     NoDup (map cardKey cards) /\
     Subsequence (map product cards) P /\ cards <> []).
Proof.
  split.
  - intros bs Hbs. unfold render in Hbs. cbn [filters] in Hbs.
    destruct (showFilters ui); [|discriminate]. inversion Hbs; subst bs; clear Hbs.
    unfold sizeButtons. simpl. rewrite map_map. simpl. constructor.
    + rewrite in_map_iff. intros [x [Hx _]]. discriminate.
    + apply NoDup_map_Some.
      destruct (Page.data q) as [P|]; [|constructor].
      apply JsFacts.ascending_NoDup, availableSizes_ascending.
  - intros P cards Hd Hn Hm. unfold render in Hm. cbn [main] in Hm. unfold body in Hm.
    destruct (Page.isLoading q); [discriminate|].
    destruct (Page.isError q); [discriminate|].
    rewrite Hd in Hm.
    remember (filteredProducts toLowerCase (Some P) (searchTerm ui) (selectedSize ui)) as F eqn:E.
    destruct (Nat.eqb (List.length F) 0) eqn:Elen; [discriminate|].
    inversion Hm; subst cards; clear Hm.
    rewrite !map_map. cbn [cardKey product]. rewrite map_id.
    repeat split.
    + subst F. apply (Subsequence_NoDup _ (map sku P)); [|assumption].
      apply Subsequence_map, filter_Subsequence.
    + subst F. apply filter_Subsequence.
    + destruct F; [discriminate Elen | discriminate].
Qed.

End Keys.

End ShopFacts.

(** * More on the error toast *)

Module ToastFacts.
Import Page.
Local Open Scope list_scope.

Lemma Subsequence_app {A : Type} (a a' b b' : list A) :
  Subsequence a a' -> Subsequence b b' -> Subsequence (a ++ b) (a' ++ b').
Proof.
  intros Ha Hb. induction Ha; simpl; [assumption | now constructor | now constructor].
Qed.

Lemma Subsequence_refl {A : Type} (l : list A) : Subsequence l l.
Proof. induction l; now constructor. Qed.

(** What a step adds to the log depends on the remembered dependencies
    only, not on what is already in the log. *)
Lemma step_log (st : State) (ev : Event) :
  toasts (step st ev) = toasts st ++ toasts (step (mkState (remembered st) []) ev)
  /\ remembered (step st ev) = remembered (step (mkState (remembered st) []) ev).
Proof.
  destruct ev as [q|]; simpl; split; try reflexivity.
  - destruct (effectRuns (remembered st) q); [destruct (effect q)|];
      simpl; now rewrite ?app_nil_r.
  - now rewrite app_nil_r.
Qed.

Lemma run_log (tr : list Event) :
  forall st, toasts (run st tr) = toasts st ++ toasts (run (mkState (remembered st) []) tr).
Proof.
  induction tr as [|ev tr IH]; intros st.
  - simpl. now rewrite app_nil_r.
  - change (run st (ev :: tr)) with (run (step st ev) tr).
    change (run (mkState (remembered st) []) (ev :: tr))
      with (run (step (mkState (remembered st) []) ev) tr).
    destruct (step_log st ev) as [Ht Hr].
    rewrite (IH (step st ev)), (IH (step (mkState (remembered st) []) ev)).
    now rewrite Ht, Hr, app_assoc.
Qed.

Lemma toasts_bounded (tr : list Event) :
  forall st, exists extra,
    toasts (run st tr) = toasts st ++ extra /\
    Subsequence extra (effectTexts (observed tr)).
Proof.
  induction tr as [|ev tr IH]; intros st.
  - exists []. simpl. split; [now rewrite app_nil_r | constructor].
  - change (run st (ev :: tr)) with (run (step st ev) tr).
    destruct (IH (step st ev)) as [extra [He Hs]].
    destruct ev as [q|].
    + cbn [observed]. unfold effectTexts. cbn [flat_map]. fold (effectTexts (observed tr)).
      rewrite He. cbn [step toasts].
      destruct (effectRuns (remembered st) q); [destruct (effect q) as [t|]|].
      * exists ([t] ++ extra). split; [now rewrite app_assoc|].
        apply Subsequence_app; [apply Subsequence_refl | assumption].
      * exists extra. now split.
      * exists extra. split; [reflexivity|].
        destruct (effect q); [now constructor | assumption].
    + exists extra. split; [exact He | exact Hs].
Qed.

(** The log of toasts never holds more than the renders account for: read
    in order, its entries are messages of renders that showed an error
    carrying an [Error], each render used at most once, whatever the page
    was mounted, unmounted and re-rendered in between. *)
Theorem toasts_come_from_error_renders (tr : list Event) :
  Subsequence (toasts (run init tr)) (effectTexts (observed tr)).
Proof.
  destruct (toasts_bounded tr init) as [extra [He Hs]]. now rewrite He.
Qed.

(** Unmounting forgets the dependencies: what the page raises after an
    unmount is what a page mounted for the first time would raise. *)
Theorem unmount_starts_over (st : State) (tr1 tr2 : list Event) :
  toasts (run st (tr1 ++ Unmount :: tr2))
  = toasts (run st tr1) ++ toasts (run init tr2).
Proof.
  unfold run at 1. rewrite fold_left_app. cbn [fold_left].
  fold (run st tr1). fold (run (step (run st tr1) Unmount) tr2).
  now rewrite run_log.
Qed.

(** At a render, the toast and the banner agree: a toast that is raised
    reads "Shop error: " followed by the very message the banner shows, and
    when the query failed with something that is not an [Error] the banner
    shows "Unknown error" and no toast is raised. *)
Theorem toast_agrees_with_banner (st : State) (q : QueryResult) :
  (toasts (step st (Render q)) = toasts st \/
   exists m, Shop.errorBanner q = Some m /\
             toasts (step st (Render q)) = toasts st ++ [("Shop error: " ++ m)%string])
  /\
  (isError q = true -> (forall e, error q <> Some (IsError e)) ->
   Shop.errorBanner q = Some "Unknown error"%string /\
   toasts (step st (Render q)) = toasts st).
Proof.
  unfold Shop.errorBanner. cbn [step toasts]. unfold effect. split.
  - destruct (effectRuns (remembered st) q); [|now left].
    destruct (isError q); [|now left].
    destruct (error q) as [[e|i]|]; [|now left|now left].
    right. exists (message e). now split.
  - intros Hi Hne. rewrite Hi.
    destruct (error q) as [[e|i]|]; [now destruct (Hne e)| |];
      (split; [reflexivity|]); now destruct (effectRuns (remembered st) q).
Qed.

End ToastFacts.

(** * The further properties at work on the sample data *)

Example highlighted_twice :
  List.length (filter Shop.highlighted
                 (Shop.sizeButtons (availableSizes (Some [allSizeScarf; redShirt]))
                                   (Shop.mkUi "" "all" true))) = 2%nat.
Proof. reflexivity. Qed.

Example sentinel_label_filters_nothing :
  filteredProducts asciiLower (Some [allSizeScarf; redShirt]) "" "all"
  = [allSizeScarf; redShirt].
Proof. reflexivity. Qed.

Lemma availableSizes_permutation_witness :
  availableSizes (Some [redShirt; acmeCap]) = availableSizes (Some [acmeCap; redShirt]).
Proof.
  apply (availableSizes_permutation [redShirt; acmeCap] [acmeCap; redShirt]).
  apply perm_swap.
Defined.

Lemma offered_size_selects_products_witness :
  exists p, In p (filteredProducts asciiLower (Some [redShirt; acmeCap]) "" "S").
Proof.
  apply (offered_size_selects_products asciiLower eq_refl [redShirt; acmeCap] "S").
  simpl. right. now left.
Defined.

Lemma search_then_size_witness :
  filteredProducts asciiLower
    (Some (filteredProducts asciiLower (Some [redShirt; acmeCap]) "c" "all")) "" "M"
  = filteredProducts asciiLower (Some [redShirt; acmeCap]) "c" "M".
Proof.
  exact (search_then_size asciiLower eq_refl [redShirt; acmeCap] "c" "M").
Defined.

Lemma unavailable_size_hides_all_witness :
  filteredProducts asciiLower (Some [redShirt]) "red" "L" = [].
Proof.
  apply (unavailable_size_hides_all asciiLower [redShirt] "red" "L").
  - discriminate.
  - simpl. intros [H|[]]. discriminate H.
Defined.

Lemma click_highlights_witness :
  exists b',
    nth_error (Shop.sizeButtons ["M"; "S"]%string
                 (Shop.handle Shop.initial (Shop.SetSelectedSize "M"))) 1 = Some b' /\
    Shop.highlighted b' = true /\
    map Shop.key (Shop.sizeButtons ["M"; "S"]%string
                    (Shop.handle Shop.initial (Shop.SetSelectedSize "M")))
      = map Shop.key (Shop.sizeButtons ["M"; "S"]%string Shop.initial) /\
    map Shop.text (Shop.sizeButtons ["M"; "S"]%string
                     (Shop.handle Shop.initial (Shop.SetSelectedSize "M")))
      = map Shop.text (Shop.sizeButtons ["M"; "S"]%string Shop.initial).
Proof.
  exact (ShopFacts.click_highlights ["M"; "S"]%string Shop.initial 1
           (Shop.mkButton (Some "M"%string) "M" false (Shop.SetSelectedSize "M")) eq_refl).
Defined.

Lemma offered_size_shows_grid_witness :
  exists card cards,
    Shop.main (Shop.render asciiLower (loaded [redShirt; acmeCap])
                 (Shop.handle (Shop.mkUi "" "all" true) (Shop.SetSelectedSize "S")))
      = Shop.Grid (card :: cards) /\
    map Shop.product (card :: cards)
      = filteredProducts asciiLower (Some [redShirt; acmeCap]) "" "S".
Proof.
  apply (ShopFacts.offered_size_shows_grid asciiLower eq_refl
           (loaded [redShirt; acmeCap]) [redShirt; acmeCap] (Shop.mkUi "" "all" true)
           (Shop.mkButton (Some "S"%string) "S" false (Shop.SetSelectedSize "S")) "S");
    try reflexivity.
  simpl. right. right. now left.
Defined.

Lemma keys_unique_witness :
  NoDup (map Shop.key (Shop.sizeButtons (availableSizes (Some [redShirt; acmeCap]))
                                        (Shop.mkUi "" "M" true)))
  /\ NoDup (map Shop.cardKey [Shop.mkCard 1 redShirt; Shop.mkCard 2 acmeCap]).
Proof.
  split.
  - apply (proj1 (ShopFacts.keys_unique asciiLower (loaded [redShirt; acmeCap])
                    (Shop.mkUi "" "M" true))).
    reflexivity.
  - apply (proj2 (ShopFacts.keys_unique asciiLower (loaded [redShirt; acmeCap])
                    (Shop.mkUi "" "M" true)) [redShirt; acmeCap]);
      [reflexivity | | reflexivity].
    simpl. repeat constructor; simpl; intuition discriminate.
Defined.

Lemma toast_agrees_with_banner_witness :
  Shop.errorBanner failedOddly = Some "Unknown error"%string /\
  Page.toasts (Page.step Page.init (Page.Render failedOddly)) = [].
Proof.
  apply (proj2 (ToastFacts.toast_agrees_with_banner Page.init failedOddly)).
  - reflexivity.
  - intros e H. discriminate H.
Defined.
